(** * Turn-taking logic of the dialogflow call handler (app.js)

    A shallow embedding of the event handlers that [handleInvite] attaches to
    a media endpoint, and of the two deferred pieces of code they leave
    behind: the continuation of [handleAudio] after [await this.play(..)] and
    the callback armed by [setTimeout] in [handleIntent].

    The handlers keep their state in two properties stored on the endpoint
    object ([hangupAfterPlayDone], [waitingForPlayStart]).  Everything the
    handlers ask of their collaborators (logger, endpoint, SIP dialog) is
    recorded, in program order, as a list of [effect]s. *)

From Stdlib Require Import List String Bool Arith Lia.
Import ListNotations.
Open Scope string_scope.
Open Scope list_scope.

(** ** JavaScript values stored in the flags *)

(** A property that was never assigned reads as [undefined]; the handlers
    only ever assign booleans and only ever test truthiness. *)
Inductive jsval : Type :=
| JUndefined
| JBool (b : bool).

Definition truthy (v : jsval) : bool :=
  match v with
  | JUndefined => false
  | JBool b => b
  end.

(** ** Data *)

(** The media endpoint, as far as app.js reads and writes it. *)
Record endpoint : Type := mkEndpoint {
  uuid : string;
  hangupAfterPlayDone : jsval;
  waitingForPlayStart : jsval
}.

(** One call: the endpoint plus what the event loop still owes the handlers.
    [playsAwaited] counts the invocations of [handleAudio] suspended at
    [await this.play(..)]; [timers] holds the delay (ms) of every armed and
    not yet fired [setTimeout] callback.  All suspended continuations run the
    same code over the same endpoint and dialog, and so do all callbacks. *)
Record session : Type := mkSession {
  ep : endpoint;
  playsAwaited : nat;
  timers : list nat
}.

(** Event payloads.  [*_json] stands for [JSON.stringify] of the payload. *)
Record intent : Type := mkIntent {
  intent_json : string;
  end_interaction : jsval        (* intent.query_result.intent.end_interaction *)
}.

Record transcription : Type := mkTranscription {
  transcription_json : string;
  is_final : jsval               (* transcription.recognition_result.is_final *)
}.

Record audio : Type := mkAudio {
  path : string
}.

(** Calls made on the collaborators. *)
Inductive effect : Type :=
| LogInfo (msg : string)                 (* logger.info(msg) *)
| LogInfoCall (callId msg : string)      (* logger.info({callId}, msg) *)
| Play (clip : string)                   (* endpoint.play(clip) *)
| Api (command args : string)            (* endpoint.api(command, args) *)
| EndpointDestroy                        (* endpoint.destroy() *)
| DialogDestroy.                         (* dlg.destroy() *)

(** What can happen to a call once it is set up. *)
Inductive event : Type :=
| Intent (i : intent)                    (* dialogflow::intent *)
| Transcription (t : transcription)      (* dialogflow::transcription *)
| AudioProvided (a : audio)              (* dialogflow::audio_provided *)
| EndOfUtterance (json : string)         (* dialogflow::end_of_utterance *)
| DialogError (json : string)            (* dialogflow::error *)
| CallerBye                              (* 'destroy' on the SIP dialog *)
| PlayDone                               (* a promise of endpoint.play resolves *)
| TimerFire.                             (* an armed timer expires *)

(** ** The module-level constants *)

Definition customEvents : list string :=
  [ "dialogflow::intent";
    "dialogflow::transcription";
    "dialogflow::end_of_utterance";
    "dialogflow::audio_provided" ].

Definition event_name (e : event) : option string :=
  match e with
  | Intent _ => Some "dialogflow::intent"
  | Transcription _ => Some "dialogflow::transcription"
  | AudioProvided _ => Some "dialogflow::audio_provided"
  | EndOfUtterance _ => Some "dialogflow::end_of_utterance"
  | DialogError _ => Some "dialogflow::error"
  | CallerBye | PlayDone | TimerFire => None
  end.

(** ** Field updates *)

Definition set_hangupAfterPlayDone (v : jsval) (s : session) : session :=
  mkSession (mkEndpoint (uuid (ep s)) v (waitingForPlayStart (ep s)))
            (playsAwaited s) (timers s).

Definition set_waitingForPlayStart (v : jsval) (s : session) : session :=
  mkSession (mkEndpoint (uuid (ep s)) (hangupAfterPlayDone (ep s)) v)
            (playsAwaited s) (timers s).

Definition setTimeout (ms : nat) (s : session) : session :=
  mkSession (ep s) (playsAwaited s) (timers s ++ [ms]).

Definition await_play (s : session) : session :=
  mkSession (ep s) (S (playsAwaited s)) (timers s).

(** ** The handlers *)

(** [handleIntent]: log; on a truthy [end_interaction] raise both flags and
    arm the 1000 ms callback. *)
Definition handleIntent (s : session) (i : intent) : session * list effect :=
  let log := LogInfo ("got intent: " ++ intent_json i)%string in
  if truthy (end_interaction i)
  then (setTimeout 1000
          (set_waitingForPlayStart (JBool true)
             (set_hangupAfterPlayDone (JBool true) s)),
        [log])
  else (s, [log]).

(** The arrow function handed to [setTimeout]. *)
Definition timerCallback (s : session) : session * list effect :=
  if truthy (waitingForPlayStart (ep s))
  then (s, [DialogDestroy])
  else (s, []).

(** [handleTranscription]. *)
Definition handleTranscription (s : session) (t : transcription)
  : session * list effect :=
  if truthy (is_final t)
  then (s, [LogInfo ("got transcription: " ++ transcription_json t)%string])
  else (s, []).

(** [handleAudio] up to and including the call of [this.play]. *)
Definition handleAudio (s : session) (a : audio) : session * list effect :=
  (await_play (set_waitingForPlayStart (JBool false) s),
   [LogInfo ("got audio file to play: " ++ path a)%string; Play (path a)]).

(** [handleAudio] from the point where the awaited promise has resolved.
    (A rejected promise would end the function there; nothing is modelled
    for it beyond the continuation never being resumed.) *)
Definition handleAudio_resume (s : session) : session * list effect :=
  if truthy (hangupAfterPlayDone (ep s))
  then (s, [DialogDestroy])
  else (s, [Api "dialogflow_start" (uuid (ep s) ++ " rising-af044 en-US 20")%string]).

(** [handleEndOfUtterance]. *)
Definition handleEndOfUtterance (s : session) (json : string)
  : session * list effect :=
  (s, [LogInfo ("got end of utterance: " ++ json)%string]).

(** [handleError]. *)
Definition handleError (s : session) (json : string) : session * list effect :=
  (s, [LogInfo ("got error: " ++ json)%string]).

(** The listener [handleInvite] puts on the dialog's 'destroy' event. *)
Definition onDialogDestroy (s : session) : session * list effect :=
  (s, [LogInfo "got BYE from caller, hangup"; EndpointDestroy]).

(** [handleInvite].  [connected] is the outcome of [connectCaller]: the uuid
    of the new endpoint, or [None] when the promise is rejected, in which
    case the rest of the function never runs. *)
Definition new_session (u : string) : session :=
  mkSession (mkEndpoint u JUndefined JUndefined) 0 [].

Definition handleInvite (callId uri : string) (connected : option string)
  : option session * list effect :=
  let log := LogInfoCall callId ("received incoming call: " ++ uri)%string in
  match connected with
  | None => (None, [log])
  | Some u =>
      (Some (new_session u),
       [log; Api "dialogflow_start" (u ++ " rising-af044 en-US 20 welcome")%string])
  end.

(** ** The event loop *)

(** One event, run to completion.  [PlayDone] resumes one suspended
    [handleAudio]; [TimerFire] runs the oldest armed callback.  With nothing
    suspended or armed there is no code to run. *)
Definition step (s : session) (e : event) : session * list effect :=
  match e with
  | Intent i => handleIntent s i
  | Transcription t => handleTranscription s t
  | AudioProvided a => handleAudio s a
  | EndOfUtterance j => handleEndOfUtterance s j
  | DialogError j => handleError s j
  | CallerBye => onDialogDestroy s
  | PlayDone =>
      match playsAwaited s with
      | 0 => (s, [])
      | S n => handleAudio_resume (mkSession (ep s) n (timers s))
      end
  | TimerFire =>
      match timers s with
      | [] => (s, [])
      | _ :: rest => timerCallback (mkSession (ep s) (playsAwaited s) rest)
      end
  end.

Fixpoint run (s : session) (es : list event) : session * list effect :=
  match es with
  | [] => (s, [])
  | e :: es' =>
      let (s1, out1) := step s e in
      let (s2, out2) := run s1 es' in
      (s2, out1 ++ out2)
  end.

(** ** Observations on a trace *)

Definition is_log (x : effect) : bool :=
  match x with
  | LogInfo _ | LogInfoCall _ _ => true
  | _ => false
  end.

(** The commands: everything that is not a log line. *)
Definition commands (t : list effect) : list effect :=
  filter (fun x => negb (is_log x)) t.

Definition is_endpoint_destroy (x : effect) : bool :=
  match x with EndpointDestroy => true | _ => false end.

Definition is_dialog_destroy (x : effect) : bool :=
  match x with DialogDestroy => true | _ => false end.

Definition is_play (x : effect) : bool :=
  match x with Play _ => true | _ => false end.

Definition is_api (x : effect) : bool :=
  match x with Api _ _ => true | _ => false end.

Definition count (p : effect -> bool) (t : list effect) : nat :=
  List.length (filter p t).

(** The call counts as terminated once either destroy has been requested. *)
Definition terminated (t : list effect) : bool :=
  existsb (fun x => is_endpoint_destroy x || is_dialog_destroy x) t.

(** An effect other than a turn request, or the request for a next turn on
    endpoint [u]: the fixed agent, language and timeout, no event name. *)
Definition next_turn_or_other (u : string) (x : effect) : Prop :=
  match x with
  | Api command args =>
      command = "dialogflow_start" /\ args = (u ++ " rising-af044 en-US 20")%string
  | _ => True
  end.

(** Events whose handler can only write a log line. *)
Definition quiet (e : event) : bool :=
  match e with
  | Intent i => negb (truthy (end_interaction i))
  | Transcription _ | EndOfUtterance _ | DialogError _ => true
  | _ => false
  end.

Definition is_caller_bye (e : event) : bool :=
  match e with CallerBye => true | _ => false end.

(** Events that run code of [handleAudio]. *)
Definition is_audio (e : event) : bool :=
  match e with AudioProvided _ | PlayDone => true | _ => false end.

Definition is_end_intent (e : event) : bool :=
  match e with Intent i => truthy (end_interaction i) | _ => false end.

Definition is_timer_fire (e : event) : bool :=
  match e with TimerFire => true | _ => false end.

Definition is_play_done (e : event) : bool :=
  match e with PlayDone => true | _ => false end.

Definition is_audio_provided (e : event) : bool :=
  match e with AudioProvided _ => true | _ => false end.

(** The [dlg.destroy()] calls of a run that are made while handling the
    events selected by [sel]: by the timer callback for [is_timer_fire], by
    the continuation of [handleAudio] for [is_play_done]. *)
Fixpoint hangups_by (sel : event -> bool) (s : session) (es : list event) : nat :=
  match es with
  | [] => 0
  | e :: es' =>
      (if sel e then count is_dialog_destroy (snd (step s e)) else 0)
      + hangups_by sel (fst (step s e)) es'
  end.

(** ** The process around the calls *)

(** The configuration, as far as app.js reads it.  Only [log.level] is
    looked up with [config.has] first. *)
Record config : Type := mkConfig {
  log_level : option string;
  freeswitch_host : string;
  freeswitch_port : string;
  freeswitch_secret : string
}.

Definition level (c : config) : string :=
  match log_level c with
  | Some l => l
  | None => "info"
  end.

(** [srf.locals.ms], a connected media server being named by its address,
    and the number of [mrf.connect] promises that are still pending. *)
Record process : Type := mkProcess {
  locals_ms : option string;
  connecting : nat
}.

Definition initial_process : process := mkProcess None 0.

(** Calls made by the code outside the per-call handlers. *)
Inductive output : Type :=
| InfoLine (msg : string)                     (* logger.info(msg) *)
| ErrorLine (err msg : string)                (* logger.error(err, msg) *)
| MrfConnect (address port secret : string)   (* mrf.connect({address, port, secret}) *)
| ConnectCaller (callId : string)             (* srf.locals.ms.connectCaller(req, res, ..) *)
| OnCall (x : effect).                        (* a call made by [handleInvite] *)

(** What the process is notified of. *)
Inductive signal : Type :=
| SrfConnect (err : option string) (hp : string)  (* 'connect' on srf *)
| SrfError (err : string)                         (* 'error' on srf *)
| MsResolved (address : string)                   (* a promise of mrf.connect resolves *)
| MsRejected (err : string)                       (* a promise of mrf.connect is rejected *)
| Invite (callId uri : string) (connected : option string).
                                                  (* an INVITE; [connected] is what
                                                     connectCaller answers if asked *)

(** [connectMS] up to the call of [mrf.connect]. *)
Definition connectMS (c : config) (p : process) : process * list output :=
  (mkProcess (locals_ms p) (S (connecting p)),
   [MrfConnect (freeswitch_host c) (freeswitch_port c) (freeswitch_secret c)]).

(** The [.then] of [connectMS] and the [.then] chained on it by the
    'connect' listener. *)
Definition connectMS_resolved (p : process) (address : string)
  : process * list output :=
  (mkProcess (Some address) (connecting p),
   [InfoLine ("successfully connected to media server at " ++ address)%string]).

(** The [.catch] chained by the 'connect' listener. *)
Definition connectMS_rejected (p : process) (err : string)
  : process * list output :=
  (p, [ErrorLine err "Error connecting to media server"]).

(** The 'connect' listener of [srf.connect(..)]. *)
Definition onSrfConnect (c : config) (p : process) (err : option string) (hp : string)
  : process * list output :=
  match err with
  | Some e => (p, [ErrorLine e "Error connecting to drachtio"])
  | None =>
      let (p', out) := connectMS c p in
      (p', InfoLine ("connected to drachtio listening on " ++ hp)%string :: out)
  end.

(** The 'error' listener of [srf.connect(..)]. *)
Definition onSrfError (p : process) (err : string) : process * list output :=
  (p, [ErrorLine err "drachtio connection error"]).

(** [handleInvite] as registered with [srf.invite]: after the first log line
    it reads [srf.locals.ms.connectCaller]; with [srf.locals.ms] still
    undefined that throws and the function ends there. *)
Definition srf_invite (p : process) (callId uri : string) (connected : option string)
  : option session * list output :=
  let log := OnCall (LogInfoCall callId ("received incoming call: " ++ uri)%string) in
  match locals_ms p with
  | None => (None, [log])
  | Some _ =>
      match connected with
      | None => (None, [log; ConnectCaller callId])
      | Some u =>
          (Some (new_session u),
           [log; ConnectCaller callId;
            OnCall (Api "dialogflow_start" (u ++ " rising-af044 en-US 20 welcome")%string)])
      end
  end.

(** One notification, run to completion.  A settlement with no promise
    pending has no code to run. *)
Definition serve (c : config) (p : process) (g : signal) : process * list output :=
  match g with
  | SrfConnect err hp => onSrfConnect c p err hp
  | SrfError err => onSrfError p err
  | MsResolved address =>
      match connecting p with
      | 0 => (p, [])
      | S n => connectMS_resolved (mkProcess (locals_ms p) n) address
      end
  | MsRejected err =>
      match connecting p with
      | 0 => (p, [])
      | S n => connectMS_rejected (mkProcess (locals_ms p) n) err
      end
  | Invite callId uri connected => (p, snd (srf_invite p callId uri connected))
  end.

Fixpoint serve_all (c : config) (p : process) (gs : list signal)
  : process * list output :=
  match gs with
  | [] => (p, [])
  | g :: gs' =>
      let (p1, out1) := serve c p g in
      let (p2, out2) := serve_all c p1 gs' in
      (p2, out1 ++ out2)
  end.

Definition is_mrf_connect (o : output) : bool :=
  match o with MrfConnect _ _ _ => true | _ => false end.

Definition is_connect_caller (o : output) : bool :=
  match o with ConnectCaller _ => true | _ => false end.

Definition is_clean_connect (g : signal) : bool :=
  match g with SrfConnect None _ => true | _ => false end.

Definition is_ms_resolved (g : signal) : bool :=
  match g with MsResolved _ => true | _ => false end.

Definition is_invite (g : signal) : bool :=
  match g with Invite _ _ _ => true | _ => false end.

(** * Properties *)

(** ** Running the loop *)

Lemma run_app (s : session) (es1 es2 : list event) :
  run s (es1 ++ es2) =
  (fst (run (fst (run s es1)) es2),
   snd (run s es1) ++ snd (run (fst (run s es1)) es2)).
Proof.
  revert s. induction es1 as [|e es1 IH]; intros s; simpl.
  - destruct (run s es2); reflexivity.
  - destruct (step s e) as [s1 out1]. rewrite IH.
    destruct (run s1 es1) as [s2 out2]; simpl.
    now rewrite app_assoc.
Qed.

Lemma run_cons (s : session) (e : event) (es : list event) :
  run s (e :: es) =
  (fst (run (fst (step s e)) es),
   snd (step s e) ++ snd (run (fst (step s e)) es)).
Proof.
  simpl. destruct (step s e) as [s1 out1]; simpl.
  destruct (run s1 es); reflexivity.
Qed.

Lemma commands_app (t1 t2 : list effect) :
  commands (t1 ++ t2) = commands t1 ++ commands t2.
Proof. apply filter_app. Qed.

Lemma count_app (p : effect -> bool) (t1 t2 : list effect) :
  count p (t1 ++ t2) = count p t1 + count p t2.
Proof. unfold count. now rewrite filter_app, length_app. Qed.

(** A quiet event leaves the session alone and issues no command. *)
Lemma quiet_step (s : session) (e : event) :
  quiet e = true ->
  fst (step s e) = s /\ commands (snd (step s e)) = [].
Proof.
  destruct e as [i|t| | | | | |]; simpl; try discriminate; intros H.
  - unfold handleIntent. destruct (truthy (end_interaction i)); [discriminate|].
    now split.
  - unfold handleTranscription. destruct (truthy (is_final t)); now split.
  - now split.
  - now split.
Qed.

Lemma quiet_run (s : session) (es : list event) :
  forallb quiet es = true ->
  fst (run s es) = s /\ commands (snd (run s es)) = [].
Proof.
  revert s. induction es as [|e es IH]; intros s H; [now split|].
  simpl in H. apply andb_prop in H as [He Hes].
  rewrite run_cons; simpl.
  destruct (quiet_step s e He) as [Hs Hc]. rewrite Hs, commands_app, Hc.
  destruct (IH s Hes) as [Hs' Hc']. now rewrite Hs', Hc'.
Qed.

(** No handler assigns the endpoint's uuid. *)
Lemma step_uuid (s : session) (e : event) :
  uuid (ep (fst (step s e))) = uuid (ep s).
Proof.
  destruct e as [i|t|a| | | | |]; simpl; try reflexivity.
  - unfold handleIntent. now destruct (truthy (end_interaction i)).
  - unfold handleTranscription. now destruct (truthy (is_final t)).
  - destruct (playsAwaited s); [reflexivity|].
    unfold handleAudio_resume; simpl.
    now destruct (truthy (hangupAfterPlayDone (ep s))).
  - destruct (timers s); [reflexivity|].
    unfold timerCallback; simpl.
    now destruct (truthy (waitingForPlayStart (ep s))).
Qed.

(** [hangupAfterPlayDone] is only ever assigned [true]. *)
Lemma step_hangup_sticky (s : session) (e : event) :
  truthy (hangupAfterPlayDone (ep s)) = true ->
  truthy (hangupAfterPlayDone (ep (fst (step s e)))) = true.
Proof.
  intros H. destruct e as [i|t|a| | | | |]; simpl; try assumption.
  - unfold handleIntent. now destruct (truthy (end_interaction i)).
  - unfold handleTranscription. now destruct (truthy (is_final t)).
  - destruct (playsAwaited s); [assumption|].
    unfold handleAudio_resume; simpl. now rewrite H.
  - destruct (timers s); [assumption|].
    unfold timerCallback; simpl.
    now destruct (truthy (waitingForPlayStart (ep s))).
Qed.

Lemma run_hangup_sticky (s : session) (es : list event) :
  truthy (hangupAfterPlayDone (ep s)) = true ->
  truthy (hangupAfterPlayDone (ep (fst (run s es)))) = true.
Proof.
  revert s. induction es as [|e es IH]; intros s H; [assumption|].
  rewrite run_cons; simpl. apply IH, step_hangup_sticky, H.
Qed.

(** ** Log-only events *)

(** C7. A dialogflow error that reaches the handler is logged and nothing
    else happens: the session is left as it was, no command is issued, no
    destroy is requested, and the rest of the call runs exactly as it would
    have run without the error. *)
Theorem dialog_error_logged_only (s : session) (json : string) (es : list event) :
  step s (DialogError json) = (s, [LogInfo ("got error: " ++ json)%string])
  /\ commands (snd (step s (DialogError json))) = []
  /\ terminated (snd (step s (DialogError json))) = false
  /\ fst (run s (DialogError json :: es)) = fst (run s es)
  /\ commands (snd (run s (DialogError json :: es))) = commands (snd (run s es)).
Proof.
  repeat split; rewrite run_cons; reflexivity.
Qed.

(** The error event is not among the custom events the media resource
    function is asked to forward. *)
Remark error_event_not_subscribed (json : string) :
  forall n, event_name (DialogError json) = Some n -> ~ In n customEvents.
Proof.
  intros n H; injection H as <-. simpl. intuition discriminate.
Qed.

(** C9. A transcription is logged exactly when it is final, an end of
    utterance is always logged, and neither touches the session (both flags,
    pending playbacks and timers stay as they are) nor issues a command. *)
Theorem transcription_and_utterance_log_only
        (s : session) (t : transcription) (json : string) :
  snd (step s (Transcription t)) =
    (if truthy (is_final t)
     then [LogInfo ("got transcription: " ++ transcription_json t)%string]
     else [])
  /\ fst (step s (Transcription t)) = s
  /\ commands (snd (step s (Transcription t))) = []
  /\ step s (EndOfUtterance json) =
       (s, [LogInfo ("got end of utterance: " ++ json)%string])
  /\ commands (snd (step s (EndOfUtterance json))) = [].
Proof.
  simpl. unfold handleTranscription.
  destruct (truthy (is_final t)); repeat split.
Qed.

(** ** The end-of-interaction intent and its timer *)

(** C6. An intent with a truthy [end_interaction] is logged, sets both flags
    to [true] and arms one callback with a delay of 1000 ms, touching nothing
    else; the callback, when it runs, is used up and requests the hangup
    exactly when [waitingForPlayStart] is truthy at that moment.  Any other
    intent is logged and the session is left as it was. *)
Theorem intent_arms_fallback (s s' : session) (i : intent) (d : nat) (ds : list nat) :
  handleIntent s i =
    (if truthy (end_interaction i)
     then mkSession (mkEndpoint (uuid (ep s)) (JBool true) (JBool true))
                    (playsAwaited s) (timers s ++ [1000])
     else s,
     [LogInfo ("got intent: " ++ intent_json i)%string])
  /\ step (mkSession (ep s') (playsAwaited s') (d :: ds)) TimerFire =
       (mkSession (ep s') (playsAwaited s') ds,
        if truthy (waitingForPlayStart (ep s')) then [DialogDestroy] else [])
  /\ step (mkSession (ep s') (playsAwaited s') []) TimerFire =
       (mkSession (ep s') (playsAwaited s') [], []).
Proof.
  unfold handleIntent; simpl; unfold timerCallback; simpl.
  destruct (truthy (end_interaction i)), (truthy (waitingForPlayStart (ep s')));
    repeat split.
Qed.

(** ** Audio clips *)

(** [handleAudio] in its two halves.  An audio event is logged, clears
    [waitingForPlayStart] and starts playing the clip; when the playback
    promise resolves, a truthy [hangupAfterPlayDone] makes the handler hang
    up through the SIP dialog, and otherwise the next turn is requested
    without the welcome event.  Flags are read at resumption and not written
    by it. *)
Lemma audio_played_then_hangup_or_next_turn (s : session) (a : audio) (n : nat) :
  handleAudio s a =
    (mkSession (mkEndpoint (uuid (ep s)) (hangupAfterPlayDone (ep s)) (JBool false))
               (S (playsAwaited s)) (timers s),
     [LogInfo ("got audio file to play: " ++ path a)%string; Play (path a)])
  /\ step (mkSession (ep s) (S n) (timers s)) PlayDone =
       (mkSession (ep s) n (timers s),
        if truthy (hangupAfterPlayDone (ep s))
        then [DialogDestroy]
        else [Api "dialogflow_start" (uuid (ep s) ++ " rising-af044 en-US 20")%string]).
Proof.
  simpl; unfold handleAudio_resume; simpl.
  destruct (truthy (hangupAfterPlayDone (ep s))); repeat split.
Qed.

(** C1.  The code at the input on which it misses the claim: after an
    end-of-interaction intent the final clip is played and its completion
    hangs up the SIP dialog, but [endpoint.destroy()] is not called, so the
    media endpoint of the call is never released.  The caller-hangup
    listener, on the same session, does release it. *)
Lemma hangup_after_play_keeps_endpoint :
  snd (run (new_session "ep-1")
           [Intent (mkIntent "{}" (JBool true));
            AudioProvided (mkAudio "bye.wav");
            PlayDone])
  = [LogInfo "got intent: {}";
     LogInfo "got audio file to play: bye.wav";
     Play "bye.wav";
     DialogDestroy]
  /\ count is_endpoint_destroy
       (snd (run (new_session "ep-1")
                 [Intent (mkIntent "{}" (JBool true));
                  AudioProvided (mkAudio "bye.wav");
                  PlayDone])) = 0
  /\ commands (snd (run (new_session "ep-1") [CallerBye])) = [EndpointDestroy].
Proof. repeat split. Qed.

(** ** Starting turns *)

Lemma string_append_assoc (a b c : string) :
  ((a ++ b) ++ c = a ++ (b ++ c))%string.
Proof. induction a as [|x a IH]; simpl; [reflexivity | now rewrite IH]. Qed.

Lemma string_length_append (a b : string) :
  String.length (a ++ b)%string = String.length a + String.length b.
Proof. induction a as [|x a IH]; simpl; [reflexivity | now rewrite IH]. Qed.

Lemma step_next_turn_or_other (s : session) (e : event) :
  Forall (next_turn_or_other (uuid (ep s))) (snd (step s e)).
Proof.
  destruct e as [i|t|a| | | | |]; simpl;
    unfold handleIntent, handleTranscription.
  - destruct (truthy (end_interaction i)); repeat constructor.
  - destruct (truthy (is_final t)); repeat constructor.
  - repeat constructor.
  - repeat constructor.
  - repeat constructor.
  - repeat constructor.
  - destruct (playsAwaited s); [constructor|].
    unfold handleAudio_resume; simpl.
    destruct (truthy (hangupAfterPlayDone (ep s))); repeat constructor.
  - destruct (timers s); [constructor|].
    unfold timerCallback; simpl.
    destruct (truthy (waitingForPlayStart (ep s))); repeat constructor.
Qed.

Lemma run_next_turn_or_other (s : session) (es : list event) :
  Forall (next_turn_or_other (uuid (ep s))) (snd (run s es)).
Proof.
  revert s. induction es as [|e es IH]; intros s; [constructor|].
  rewrite run_cons; simpl. apply Forall_app; split.
  - apply step_next_turn_or_other.
  - rewrite <- (step_uuid s e). apply IH.
Qed.

(** C8. Setting up the call requests the first turn with the fixed agent,
    language and timeout followed by the welcome event; whatever events
    follow, every later request made through [endpoint.api] is a
    [dialogflow_start] with the same three parameters and no event name, and
    it is made when a playback completes with [hangupAfterPlayDone] unset. *)
Theorem welcome_on_first_turn_only
        (callId uri u : string) (es : list event) (s : session) (n : nat) :
  handleInvite callId uri (Some u) =
    (Some (new_session u),
     [LogInfoCall callId ("received incoming call: " ++ uri)%string;
      Api "dialogflow_start" ((u ++ " rising-af044 en-US 20") ++ " welcome")%string])
  /\ Forall (next_turn_or_other u) (snd (run (new_session u) es))
  /\ (u ++ " rising-af044 en-US 20")%string
       <> ((u ++ " rising-af044 en-US 20") ++ " welcome")%string
  /\ snd (step (mkSession (mkEndpoint u JUndefined (waitingForPlayStart (ep s)))
                          (S n) (timers s)) PlayDone)
     = [Api "dialogflow_start" (u ++ " rising-af044 en-US 20")%string].
Proof.
  split; [|split; [|split]].
  - simpl. now rewrite string_append_assoc.
  - apply (run_next_turn_or_other (new_session u) es).
  - intros H. apply (f_equal String.length) in H.
    rewrite (string_length_append _ " welcome") in H. simpl in H. lia.
  - reflexivity.
Qed.

(** ** Walking along an event sequence *)

Lemma commands_run_cons (s : session) (e : event) (es : list event) :
  commands (snd (run s (e :: es))) =
  commands (snd (step s e)) ++ commands (snd (run (fst (step s e)) es)).
Proof. rewrite run_cons; simpl. apply commands_app. Qed.

Lemma fst_run_cons (s : session) (e : event) (es : list event) :
  fst (run s (e :: es)) = fst (run (fst (step s e)) es).
Proof. now rewrite run_cons. Qed.

Lemma commands_run_quiet (s : session) (q es : list event) :
  forallb quiet q = true ->
  commands (snd (run s (q ++ es))) = commands (snd (run s es)).
Proof.
  intros H. rewrite run_app; simpl. rewrite commands_app.
  destruct (quiet_run s q H) as [-> ->]. reflexivity.
Qed.

Lemma fst_run_quiet (s : session) (q es : list event) :
  forallb quiet q = true ->
  fst (run s (q ++ es)) = fst (run s es).
Proof.
  intros H. rewrite run_app; simpl.
  destruct (quiet_run s q H) as [-> _]. reflexivity.
Qed.

Lemma commands_run_quiet_only (s : session) (q : list event) :
  forallb quiet q = true -> commands (snd (run s q)) = [].
Proof. intros H. apply (quiet_run s q H). Qed.

Lemma fst_run_quiet_only (s : session) (q : list event) :
  forallb quiet q = true -> fst (run s q) = s.
Proof. intros H. apply (quiet_run s q H). Qed.

(** Rewrites a run over a sequence built from single events and quiet
    stretches into the steps of its single events. *)
Ltac walk :=
  repeat first
    [ rewrite commands_run_cons
    | rewrite fst_run_cons
    | rewrite commands_run_quiet by assumption
    | rewrite fst_run_quiet by assumption
    | rewrite commands_run_quiet_only by assumption
    | rewrite fst_run_quiet_only by assumption ].

(** ** The race between the final clip and the timer *)

(** The plain exchange.  After an end-of-interaction intent, when the audio
    event comes before the timer expires and only log-only events are
    interleaved, the commands of the whole exchange are the play of the clip
    and one hangup, issued when the playback completes, whether the timer
    runs during the playback or after its completion. *)
Lemma audio_before_timer_single_hangup
        (s : session) (i : intent) (a : audio) (q1 q2 q3 q4 : list event) :
  truthy (end_interaction i) = true ->
  forallb quiet q1 = true -> forallb quiet q2 = true ->
  forallb quiet q3 = true -> forallb quiet q4 = true ->
  commands (snd (run s (Intent i :: q1 ++ AudioProvided a :: q2 ++
                        TimerFire :: q3 ++ PlayDone :: q4)))
    = [Play (path a); DialogDestroy]
  /\ commands (snd (run s (Intent i :: q1 ++ AudioProvided a :: q2 ++
                           PlayDone :: q3 ++ TimerFire :: q4)))
    = [Play (path a); DialogDestroy]
  /\ commands (snd (step (fst (run s (Intent i :: q1 ++ AudioProvided a :: q2)))
                         TimerFire)) = [].
Proof.
  intros Hi H1 H2 H3 H4. walk.
  simpl. unfold handleIntent. rewrite Hi. simpl.
  destruct (timers s) as [|d ds]; simpl; repeat split.
Qed.

(** ** Caller hangup *)

Lemma step_endpoint_destroys (s : session) (e : event) :
  count is_endpoint_destroy (snd (step s e)) =
  if is_caller_bye e then 1 else 0.
Proof.
  destruct e as [i|t|a| | | | |]; simpl; try reflexivity;
    unfold handleIntent, handleTranscription.
  - now destruct (truthy (end_interaction i)).
  - now destruct (truthy (is_final t)).
  - destruct (playsAwaited s); [reflexivity|].
    unfold handleAudio_resume; simpl.
    now destruct (truthy (hangupAfterPlayDone (ep s))).
  - destruct (timers s); [reflexivity|].
    unfold timerCallback; simpl.
    now destruct (truthy (waitingForPlayStart (ep s))).
Qed.

Lemma run_endpoint_destroys (s : session) (es : list event) :
  count is_endpoint_destroy (snd (run s es)) =
  List.length (filter is_caller_bye es).
Proof.
  revert s. induction es as [|e es IH]; intros s; [reflexivity|].
  rewrite run_cons; simpl. rewrite count_app, step_endpoint_destroys, IH.
  now destruct (is_caller_bye e).
Qed.




(** ** After the end of the call *)

Lemma step_no_play_no_turn (s : session) (e : event) :
  is_audio e = false ->
  count is_play (snd (step s e)) = 0 /\ count is_api (snd (step s e)) = 0.
Proof.
  destruct e as [i|t|a| | | | |]; simpl; try discriminate; intros _;
    unfold handleIntent, handleTranscription.
  - now destruct (truthy (end_interaction i)).
  - now destruct (truthy (is_final t)).
  - now split.
  - now split.
  - now split.
  - destruct (timers s); [now split|].
    unfold timerCallback; simpl.
    now destruct (truthy (waitingForPlayStart (ep s))).
Qed.

Lemma run_no_play_no_turn (s : session) (es : list event) :
  forallb (fun e => negb (is_audio e)) es = true ->
  count is_play (snd (run s es)) = 0 /\ count is_api (snd (run s es)) = 0.
Proof.
  revert s. induction es as [|e es IH]; intros s H; [now split|].
  simpl in H. apply andb_prop in H as [He Hes].
  apply negb_true_iff in He.
  rewrite run_cons; simpl. rewrite !count_app.
  destruct (step_no_play_no_turn s e He) as [-> ->].
  destruct (IH (fst (step s e)) Hes) as [-> ->]. now split.
Qed.

(** With [hangupAfterPlayDone] set, no step asks for a new turn. *)
Lemma step_hangup_no_turn (s : session) (e : event) :
  truthy (hangupAfterPlayDone (ep s)) = true ->
  count is_api (snd (step s e)) = 0.
Proof.
  intros H. destruct e as [i|t|a| | | | |]; simpl; try reflexivity;
    unfold handleIntent, handleTranscription.
  - now destruct (truthy (end_interaction i)).
  - now destruct (truthy (is_final t)).
  - destruct (playsAwaited s); [reflexivity|].
    unfold handleAudio_resume; simpl. now rewrite H.
  - destruct (timers s); [reflexivity|].
    unfold timerCallback; simpl.
    now destruct (truthy (waitingForPlayStart (ep s))).
Qed.

Lemma run_hangup_no_turn (s : session) (es : list event) :
  truthy (hangupAfterPlayDone (ep s)) = true ->
  count is_api (snd (run s es)) = 0.
Proof.
  revert s. induction es as [|e es IH]; intros s H; [reflexivity|].
  rewrite run_cons; simpl. rewrite count_app, (step_hangup_no_turn s e H).
  apply IH, step_hangup_sticky, H.
Qed.

(** ** The hangup flag is never cleared *)




(** * Further properties of the handlers *)

(** Case analysis on one step of the loop, down to the tests the handlers
    make. *)
Ltac step_cases s e :=
  destruct e as [?i|?t|?a|?j|?j| | |]; simpl;
  unfold handleIntent, handleTranscription;
  [ destruct (truthy (end_interaction i)) eqn:?
  | destruct (truthy (is_final t)) eqn:?
  | | | |
  | destruct (playsAwaited s) eqn:?;
    [| unfold handleAudio_resume; simpl;
       destruct (truthy (hangupAfterPlayDone (ep s))) eqn:? ]
  | destruct (timers s) eqn:?;
    [| unfold timerCallback; simpl;
       destruct (truthy (waitingForPlayStart (ep s))) eqn:? ] ];
  simpl.

(** ** A call that is never told to end *)

Lemma step_flags_stay_down (s : session) (e : event) :
  truthy (hangupAfterPlayDone (ep s)) = false ->
  truthy (waitingForPlayStart (ep s)) = false ->
  is_end_intent e = false ->
  truthy (hangupAfterPlayDone (ep (fst (step s e)))) = false
  /\ truthy (waitingForPlayStart (ep (fst (step s e)))) = false
  /\ count is_dialog_destroy (snd (step s e)) = 0.
Proof.
  intros Hh Hw He. step_cases s e; simpl in He; try congruence; auto.
Qed.

(** Without an intent that ends the interaction the application never hangs
    up: from a session whose two flags are not set, no event sequence free of
    such intents makes any handler, continuation or timer call
    [dlg.destroy()], and the flags are still not set afterwards. *)
Theorem no_hangup_without_end_intent (s : session) (es : list event) :
  truthy (hangupAfterPlayDone (ep s)) = false ->
  truthy (waitingForPlayStart (ep s)) = false ->
  forallb (fun e => negb (is_end_intent e)) es = true ->
  count is_dialog_destroy (snd (run s es)) = 0
  /\ truthy (hangupAfterPlayDone (ep (fst (run s es)))) = false
  /\ truthy (waitingForPlayStart (ep (fst (run s es)))) = false.
Proof.
  revert s. induction es as [|e es IH]; intros s Hh Hw H; [now repeat split|].
  simpl in H. apply andb_prop in H as [He Hes]. apply negb_true_iff in He.
  destruct (step_flags_stay_down s e Hh Hw He) as (Hh' & Hw' & Hc).
  rewrite run_cons; simpl. rewrite count_app, Hc.
  apply (IH _ Hh' Hw' Hes).
Qed.

Lemma no_hangup_without_end_intent_witness :
  count is_dialog_destroy
    (snd (run (new_session "ep-1")
              [AudioProvided (mkAudio "welcome.wav"); TimerFire; PlayDone;
               Intent (mkIntent "{}" (JBool false)); CallerBye;
               AudioProvided (mkAudio "response1.wav"); PlayDone])) = 0.
Proof.
  exact (proj1 (no_hangup_without_end_intent
                  (new_session "ep-1")
                  [AudioProvided (mkAudio "welcome.wav"); TimerFire; PlayDone;
                   Intent (mkIntent "{}" (JBool false)); CallerBye;
                   AudioProvided (mkAudio "response1.wav"); PlayDone]
                  eq_refl eq_refl eq_refl)).
Defined.

Lemma step_turn_per_clip (s : session) (e : event) :
  truthy (hangupAfterPlayDone (ep s)) = false ->
  is_end_intent e = false ->
  truthy (hangupAfterPlayDone (ep (fst (step s e)))) = false
  /\ count is_api (snd (step s e)) + playsAwaited (fst (step s e))
     = playsAwaited s + count is_play (snd (step s e)).
Proof.
  intros Hh He. step_cases s e; simpl in He; try congruence; split; auto;
    unfold count; simpl; lia.
Qed.

(** While no intent ends the interaction the conversation keeps going: every
    clip whose playback has completed has been answered by one request for a
    next turn.  In numbers, the turn requests plus the playbacks still
    awaited equal the playbacks awaited at the start plus the clips played. *)
Theorem one_turn_per_completed_clip (s : session) (es : list event) :
  truthy (hangupAfterPlayDone (ep s)) = false ->
  forallb (fun e => negb (is_end_intent e)) es = true ->
  count is_api (snd (run s es)) + playsAwaited (fst (run s es))
  = playsAwaited s + count is_play (snd (run s es)).
Proof.
  revert s. induction es as [|e es IH]; intros s Hh H.
  - simpl. unfold count; simpl. lia.
  - simpl in H. apply andb_prop in H as [He Hes]. apply negb_true_iff in He.
    destruct (step_turn_per_clip s e Hh He) as [Hh' Hc].
    rewrite run_cons; simpl. rewrite !count_app.
    specialize (IH _ Hh' Hes). lia.
Qed.

Lemma one_turn_per_completed_clip_witness :
  count is_api
    (snd (run (new_session "ep-1")
              [AudioProvided (mkAudio "welcome.wav"); PlayDone;
               AudioProvided (mkAudio "response1.wav")]))
  + playsAwaited
      (fst (run (new_session "ep-1")
                [AudioProvided (mkAudio "welcome.wav"); PlayDone;
                 AudioProvided (mkAudio "response1.wav")]))
  = playsAwaited (new_session "ep-1")
    + count is_play
        (snd (run (new_session "ep-1")
                  [AudioProvided (mkAudio "welcome.wav"); PlayDone;
                   AudioProvided (mkAudio "response1.wav")])).
Proof.
  exact (one_turn_per_completed_clip
           (new_session "ep-1")
           [AudioProvided (mkAudio "welcome.wav"); PlayDone;
            AudioProvided (mkAudio "response1.wav")]
           eq_refl eq_refl).
Defined.

(** In every run, a next turn is only ever requested by the completion of a
    playback: the turn requests, together with the playbacks still awaited,
    never exceed the playbacks awaited at the start plus the clips played.
    For a call that starts with [handleInvite] this bounds the requests that
    follow the first one by the number of clips played. *)
Theorem turn_requests_bounded_by_clips (s : session) (u : string) (es : list event) :
  count is_api (snd (run s es)) + playsAwaited (fst (run s es))
    <= playsAwaited s + count is_play (snd (run s es))
  /\ count is_api (snd (run (new_session u) es))
    <= count is_play (snd (run (new_session u) es)).
Proof.
  assert (H : forall s0,
             count is_api (snd (run s0 es)) + playsAwaited (fst (run s0 es))
             <= playsAwaited s0 + count is_play (snd (run s0 es))).
  { induction es as [|e es IH]; intros s0.
    - simpl. unfold count; simpl. lia.
    - rewrite run_cons; simpl. rewrite !count_app.
      specialize (IH (fst (step s0 e))).
      assert (Hs : count is_api (snd (step s0 e)) + playsAwaited (fst (step s0 e))
                   <= playsAwaited s0 + count is_play (snd (step s0 e))).
      { clear IH. step_cases s0 e; unfold count; simpl; lia. }
      lia. }
  split; [apply H|]. specialize (H (new_session u)). simpl in H. lia.
Qed.

(** ** Log lines do not matter *)

(** Events whose handlers only log can be dropped from any event sequence:
    the session reached and the commands issued are the same with and
    without them. *)
Theorem log_only_events_can_be_erased (s : session) (es : list event) :
  fst (run s (filter (fun e => negb (quiet e)) es)) = fst (run s es)
  /\ commands (snd (run s (filter (fun e => negb (quiet e)) es)))
     = commands (snd (run s es)).
Proof.
  revert s. induction es as [|e es IH]; intros s; [now split|].
  cbn [filter]. destruct (quiet e) eqn:He; cbn [negb].
  - rewrite (fst_run_cons s e es), (commands_run_cons s e es).
    destruct (quiet_step s e He) as [-> ->]. apply IH.
  - rewrite !fst_run_cons, !commands_run_cons.
    destruct (IH (fst (step s e))) as [-> ->]. now split.
Qed.

(** ** The timer after the audio event *)

Lemma step_not_waiting (s : session) (e : event) :
  truthy (waitingForPlayStart (ep s)) = false ->
  is_end_intent e = false ->
  match e with PlayDone => false | _ => true end = true ->
  truthy (waitingForPlayStart (ep (fst (step s e)))) = false
  /\ count is_dialog_destroy (snd (step s e)) = 0.
Proof.
  intros Hw He Hp. step_cases s e; simpl in He; try congruence; auto.
Qed.

Lemma run_not_waiting (s : session) (es : list event) :
  truthy (waitingForPlayStart (ep s)) = false ->
  forallb (fun e => negb (is_end_intent e)) es = true ->
  forallb (fun e => match e with PlayDone => false | _ => true end) es = true ->
  truthy (waitingForPlayStart (ep (fst (run s es)))) = false
  /\ count is_dialog_destroy (snd (run s es)) = 0.
Proof.
  revert s. induction es as [|e es IH]; intros s Hw H1 H2; [now split|].
  simpl in H1, H2.
  apply andb_prop in H1 as [He Hes]. apply negb_true_iff in He.
  apply andb_prop in H2 as [Hp Hps].
  destruct (step_not_waiting s e Hw He Hp) as [Hw' Hc].
  rewrite run_cons. cbn [fst snd]. rewrite count_app, Hc.
  apply (IH _ Hw' Hes Hps).
Qed.

(** An audio event disarms every timer that is pending: from the audio event
    on, and until a playback completes or another intent ends the
    interaction, nothing hangs up the call, however many timers expire and
    whatever else arrives. *)
Theorem audio_disarms_pending_timers (s : session) (a : audio) (es : list event) :
  forallb (fun e => negb (is_end_intent e)) es = true ->
  forallb (fun e => match e with PlayDone => false | _ => true end) es = true ->
  count is_dialog_destroy (snd (run s (AudioProvided a :: es))) = 0
  /\ snd (step (fst (run s (AudioProvided a :: es))) TimerFire) = [].
Proof.
  intros H1 H2.
  assert (Hw : truthy (waitingForPlayStart
                         (ep (fst (step s (AudioProvided a))))) = false)
    by reflexivity.
  destruct (run_not_waiting _ es Hw H1 H2) as [Hw' Hc].
  rewrite run_cons. cbn [fst snd]. rewrite count_app, Hc. split; [reflexivity|].
  set (s2 := fst (run _ es)) in *. clearbody s2.
  simpl. destruct (timers s2); [reflexivity|].
  unfold timerCallback; simpl. now rewrite Hw'.
Qed.

Lemma audio_disarms_pending_timers_witness :
  count is_dialog_destroy
    (snd (run (new_session "ep-1")
              (AudioProvided (mkAudio "bye.wav") ::
               [TimerFire; CallerBye; TimerFire;
                Intent (mkIntent "{}" JUndefined)]))) = 0.
Proof.
  exact (proj1 (audio_disarms_pending_timers
                  (new_session "ep-1") (mkAudio "bye.wav")
                  [TimerFire; CallerBye; TimerFire;
                   Intent (mkIntent "{}" JUndefined)]
                  eq_refl eq_refl)).
Defined.

(** ** What every call looks like *)

Lemma step_keeps_shape (s : session) (e : event) :
  implb (truthy (waitingForPlayStart (ep s)))
        (truthy (hangupAfterPlayDone (ep s))) = true ->
  truthy (hangupAfterPlayDone (ep s)) = true \/ timers s = [] ->
  Forall (eq 1000) (timers s) ->
  implb (truthy (waitingForPlayStart (ep (fst (step s e)))))
        (truthy (hangupAfterPlayDone (ep (fst (step s e))))) = true
  /\ (truthy (hangupAfterPlayDone (ep (fst (step s e)))) = true
      \/ timers (fst (step s e)) = [])
  /\ Forall (eq 1000) (timers (fst (step s e))).
Proof.
  intros Hi Ht Hf. step_cases s e;
    repeat match goal with
           | H : truthy ?x = _ |- context [truthy ?x] => rewrite H
           end;
    repeat split; auto;
    try (apply Forall_app; split; [assumption | now repeat constructor]);
    try (destruct Ht as [Ht|Ht]; [now left | congruence]);
    try (match goal with H : timers s = _ |- _ => rewrite H end; assumption);
    try (inversion Hf; assumption).
Qed.

(** In every state a call can reach from its set-up: [waitingForPlayStart] is
    only truthy while [hangupAfterPlayDone] is, a timer is only pending while
    [hangupAfterPlayDone] is truthy, every pending timer has the 1000 ms
    delay, and the endpoint is still the one the call started with. *)
Theorem shape_of_reachable_sessions (u : string) (es : list event) :
  implb (truthy (waitingForPlayStart (ep (fst (run (new_session u) es)))))
        (truthy (hangupAfterPlayDone (ep (fst (run (new_session u) es))))) = true
  /\ (truthy (hangupAfterPlayDone (ep (fst (run (new_session u) es)))) = true
      \/ timers (fst (run (new_session u) es)) = [])
  /\ Forall (eq 1000) (timers (fst (run (new_session u) es)))
  /\ uuid (ep (fst (run (new_session u) es))) = u.
Proof.
  assert (H : forall s,
             implb (truthy (waitingForPlayStart (ep s)))
                   (truthy (hangupAfterPlayDone (ep s))) = true ->
             truthy (hangupAfterPlayDone (ep s)) = true \/ timers s = [] ->
             Forall (eq 1000) (timers s) ->
             implb (truthy (waitingForPlayStart (ep (fst (run s es)))))
                   (truthy (hangupAfterPlayDone (ep (fst (run s es))))) = true
             /\ (truthy (hangupAfterPlayDone (ep (fst (run s es)))) = true
                 \/ timers (fst (run s es)) = [])
             /\ Forall (eq 1000) (timers (fst (run s es)))
             /\ uuid (ep (fst (run s es))) = uuid (ep s)).
  { induction es as [|e es IH]; intros s Hi Ht Hf; [now repeat split|].
    destruct (step_keeps_shape s e Hi Ht Hf) as (Hi' & Ht' & Hf').
    rewrite fst_run_cons, <- (step_uuid s e). apply (IH _ Hi' Ht' Hf'). }
  apply (H (new_session u)); simpl; auto.
Qed.

(** ** One timer per intent *)

Lemma end_intents_arm_timers (s : session) (l : list intent) :
  forallb (fun i => truthy (end_interaction i)) l = true ->
  timers (fst (run s (map Intent l))) = timers s ++ repeat 1000 (List.length l)
  /\ commands (snd (run s (map Intent l))) = []
  /\ (l = [] \/ truthy (waitingForPlayStart (ep (fst (run s (map Intent l))))) = true).
Proof.
  revert s. induction l as [|i l IH]; intros s H.
  - simpl. rewrite app_nil_r. auto.
  - simpl in H. apply andb_prop in H as [Hi Hl].
    cbn [map]. rewrite fst_run_cons, commands_run_cons.
    assert (Hs : step s (Intent i) =
                 (setTimeout 1000
                    (set_waitingForPlayStart (JBool true)
                       (set_hangupAfterPlayDone (JBool true) s)),
                  [LogInfo ("got intent: " ++ intent_json i)%string])).
    { simpl. unfold handleIntent. now rewrite Hi. }
    rewrite Hs. cbn [fst snd].
    destruct (IH (setTimeout 1000
                    (set_waitingForPlayStart (JBool true)
                       (set_hangupAfterPlayDone (JBool true) s))) Hl)
      as (Ht & Hc & Hw).
    rewrite Ht, Hc. repeat split.
    + simpl. now rewrite <- app_assoc.
    + right. destruct Hw as [-> | Hw]; [reflexivity | exact Hw].
Qed.

Lemma waiting_timers_all_hang_up (k : nat) (s : session) :
  truthy (waitingForPlayStart (ep s)) = true ->
  List.length (timers s) = k ->
  commands (snd (run s (repeat TimerFire k))) = repeat DialogDestroy k.
Proof.
  revert s. induction k as [|k IH]; intros s Hw Hk; [reflexivity|].
  cbn [repeat]. rewrite commands_run_cons.
  destruct (timers s) as [|d ds] eqn:Ht; [discriminate|].
  assert (Hs : step s TimerFire =
               (mkSession (ep s) (playsAwaited s) ds, [DialogDestroy])).
  { simpl. rewrite Ht. unfold timerCallback; simpl. now rewrite Hw. }
  rewrite Hs. cbn [fst snd]. rewrite IH; [reflexivity | exact Hw |].
  simpl in Hk. simpl. lia.
Qed.

(** The fallback is armed per intent, not per call: when several intents end
    the interaction and no audio event follows, [dlg.destroy()] is called
    once for each of them as their timers expire. *)
Theorem one_fallback_hangup_per_end_intent (s : session) (l : list intent) :
  timers s = [] ->
  forallb (fun i => truthy (end_interaction i)) l = true ->
  commands (snd (run s (map Intent l ++ repeat TimerFire (List.length l))))
  = repeat DialogDestroy (List.length l).
Proof.
  intros Ht Hl. rewrite run_app. cbn [snd]. rewrite commands_app.
  destruct (end_intents_arm_timers s l Hl) as (Hts & Hc & Hw).
  rewrite Hc. cbn [app].
  destruct Hw as [-> | Hw]; [reflexivity|].
  apply waiting_timers_all_hang_up; [exact Hw|].
  rewrite Hts, Ht. cbn [app]. apply repeat_length.
Qed.

Lemma one_fallback_hangup_per_end_intent_witness :
  commands (snd (run (new_session "ep-1")
                     (map Intent [mkIntent "{1}" (JBool true);
                                  mkIntent "{2}" (JBool true)]
                      ++ repeat TimerFire 2)))
  = [DialogDestroy; DialogDestroy].
Proof.
  exact (one_fallback_hangup_per_end_intent
           (new_session "ep-1")
           [mkIntent "{1}" (JBool true); mkIntent "{2}" (JBool true)]
           eq_refl eq_refl).
Defined.

(** ** The caller's BYE cancels nothing *)

(** The caller-hangup listener only destroys the endpoint: wherever the BYE
    falls in an event sequence, the session goes through the same states as
    without it, and every command that would have been issued, before and
    after, is still issued (a suspended playback still requests its next turn
    or hangs up, an armed timer still fires). *)
Theorem caller_hangup_cancels_nothing (s : session) (es1 es2 : list event) :
  fst (run s (es1 ++ CallerBye :: es2)) = fst (run s (es1 ++ es2))
  /\ commands (snd (run s (es1 ++ CallerBye :: es2)))
     = commands (snd (run s es1))
       ++ EndpointDestroy :: commands (snd (run (fst (run s es1)) es2)).
Proof.
  rewrite !run_app. cbn [fst snd]. rewrite commands_app, commands_run_cons.
  rewrite fst_run_cons. split; reflexivity.
Qed.

(** * Properties of the process around the calls *)

Lemma serve_all_cons (c : config) (p : process) (g : signal) (gs : list signal) :
  serve_all c p (g :: gs) =
  (fst (serve_all c (fst (serve c p g)) gs),
   snd (serve c p g) ++ snd (serve_all c (fst (serve c p g)) gs)).
Proof.
  simpl. destruct (serve c p g) as [p1 out1]; simpl.
  destruct (serve_all c p1 gs); reflexivity.
Qed.

(** ** Calls that arrive before the media server is there *)

Lemma serve_without_resolution (c : config) (p : process) (g : signal) :
  locals_ms p = None ->
  is_ms_resolved g = false \/ connecting p = 0 /\ is_clean_connect g = false ->
  locals_ms (fst (serve c p g)) = None
  /\ (connecting p = 0 -> is_clean_connect g = false ->
      connecting (fst (serve c p g)) = 0)
  /\ existsb is_connect_caller (snd (serve c p g)) = false.
Proof.
  intros Hm H.
  destruct g as [[e|] hp|e|address|e|callId uri connected]; simpl.
  - auto.
  - repeat split; auto; discriminate.
  - auto.
  - destruct H as [H|[H _]]; [simpl in H; discriminate|]. rewrite H. auto.
  - destruct (connecting p) eqn:Hn; simpl; repeat split; auto; intros; congruence.
  - unfold srf_invite. rewrite Hm. auto.
Qed.

(** Until a connection to the media server has been established, an incoming
    call gets its log line and nothing more: [srf.locals.ms] is still
    undefined, so [connectCaller] is never reached, no session is created
    and no dialogflow turn is started.  That is so as long as no
    [mrf.connect] promise has resolved, in particular as long as every
    'connect' notification of the SIP server carried an error. *)
Theorem invite_before_media_server_is_dropped
        (c : config) (gs : list signal) (callId uri : string)
        (connected : option string) :
  forallb (fun g => negb (is_ms_resolved g)) gs = true
  \/ forallb (fun g => negb (is_clean_connect g)) gs = true ->
  srf_invite (fst (serve_all c initial_process gs)) callId uri connected
  = (None, [OnCall (LogInfoCall callId ("received incoming call: " ++ uri)%string)])
  /\ existsb is_connect_caller (snd (serve_all c initial_process gs)) = false.
Proof.
  intros H.
  assert (G : forall p,
             locals_ms p = None ->
             forallb (fun g => negb (is_ms_resolved g)) gs = true
             \/ connecting p = 0
                /\ forallb (fun g => negb (is_clean_connect g)) gs = true ->
             locals_ms (fst (serve_all c p gs)) = None
             /\ existsb is_connect_caller (snd (serve_all c p gs)) = false).
  { clear H. induction gs as [|g gs IH]; intros p Hm H; [now split|].
    rewrite serve_all_cons; cbn [fst snd]. rewrite existsb_app.
    assert (Hg : is_ms_resolved g = false
                 \/ connecting p = 0 /\ is_clean_connect g = false).
    { destruct H as [H|[H0 H]]; simpl in H; apply andb_prop in H as [H _];
        apply negb_true_iff in H; auto. }
    destruct (serve_without_resolution c p g Hm Hg) as (Hm' & H0' & ->).
    apply IH; [exact Hm'|].
    destruct H as [H|[H0 H]]; simpl in H; apply andb_prop in H as [Hg' H].
    - now left.
    - right. split; [|exact H]. apply H0'; [exact H0|].
      now apply negb_true_iff in Hg'. }
  destruct (G initial_process eq_refl) as [Hm Hc].
  { destruct H as [H|H]; [now left | now right]. }
  split; [|exact Hc]. unfold srf_invite. now rewrite Hm.
Qed.

Lemma invite_before_media_server_is_dropped_witness :
  existsb is_connect_caller
    (snd (serve_all (mkConfig None "127.0.0.1" "8021" "ClueCon") initial_process
                    [SrfConnect None "tcp/127.0.0.1:9022";
                     Invite "call-1" "sip:bot@example.com" (Some "ep-1");
                     MsRejected "ECONNREFUSED";
                     Invite "call-2" "sip:bot@example.com" (Some "ep-2")]))
  = false.
Proof.
  exact (proj2 (invite_before_media_server_is_dropped
                  (mkConfig None "127.0.0.1" "8021" "ClueCon")
                  [SrfConnect None "tcp/127.0.0.1:9022";
                   Invite "call-1" "sip:bot@example.com" (Some "ep-1");
                   MsRejected "ECONNREFUSED";
                   Invite "call-2" "sip:bot@example.com" (Some "ep-2")]
                  "call-3" "sip:bot@example.com" (Some "ep-3")
                  (or_introl eq_refl))).
Defined.

(** ** Connecting to the media server *)

(** A connection to the media server is attempted once for every 'connect'
    notification of the SIP server that carries no error, with the
    configured address, port and secret, and on no other occasion: not after
    a failed SIP connection, not after a failed attempt, not on an 'error'
    notification. *)
Theorem one_media_server_attempt_per_sip_connect
        (c : config) (p : process) (gs : list signal) :
  filter is_mrf_connect (snd (serve_all c p gs))
  = repeat (MrfConnect (freeswitch_host c) (freeswitch_port c) (freeswitch_secret c))
           (List.length (filter is_clean_connect gs)).
Proof.
  revert p. induction gs as [|g gs IH]; intros p; [reflexivity|].
  rewrite serve_all_cons; cbn [fst snd]. rewrite filter_app, IH.
  destruct g as [[e|] hp|e|address|e|callId uri connected]; simpl;
    try reflexivity.
  - destruct (connecting p); reflexivity.
  - destruct (connecting p); reflexivity.
  - unfold srf_invite. destruct (locals_ms p); [destruct connected|]; reflexivity.
Qed.

Lemma serve_keeps_media_server (c : config) (p : process) (g : signal) :
  locals_ms p <> None -> locals_ms (fst (serve c p g)) <> None.
Proof.
  intros H.
  destruct g as [[e|] hp|e|address|e|callId uri connected]; simpl; auto.
  - destruct (connecting p); simpl; [assumption | discriminate].
  - destruct (connecting p); simpl; assumption.
Qed.

(** Once a media server has been connected the reference to it is never
    cleared, whatever follows (SIP errors, failed reconnections): every
    later INVITE reaches [connectCaller] exactly once and, when that
    succeeds, produces the session and the calls of [handleInvite]. *)
Theorem media_server_is_never_forgotten
        (c : config) (p : process) (gs : list signal) (callId uri : string)
        (connected : option string) :
  locals_ms p <> None ->
  locals_ms (fst (serve_all c p gs)) <> None
  /\ fst (srf_invite (fst (serve_all c p gs)) callId uri connected)
     = fst (handleInvite callId uri connected)
  /\ filter (fun o => negb (is_connect_caller o))
            (snd (srf_invite (fst (serve_all c p gs)) callId uri connected))
     = map OnCall (snd (handleInvite callId uri connected))
  /\ filter is_connect_caller
            (snd (srf_invite (fst (serve_all c p gs)) callId uri connected))
     = [ConnectCaller callId].
Proof.
  intros H.
  assert (G : locals_ms (fst (serve_all c p gs)) <> None).
  { revert p H. induction gs as [|g gs IH]; intros p H; [exact H|].
    rewrite serve_all_cons; cbn [fst].
    apply IH, serve_keeps_media_server, H. }
  split; [exact G|]. unfold srf_invite.
  destruct (locals_ms (fst (serve_all c p gs))); [|congruence].
  destruct connected; repeat split.
Qed.

Lemma media_server_is_never_forgotten_witness :
  locals_ms (fst (serve_all (mkConfig None "127.0.0.1" "8021" "ClueCon")
                            (mkProcess (Some "10.0.0.5") 0)
                            [SrfError "ECONNRESET";
                             SrfConnect None "tcp/127.0.0.1:9022";
                             MsRejected "ECONNREFUSED"]))
  <> None.
Proof.
  exact (proj1 (media_server_is_never_forgotten
                  (mkConfig None "127.0.0.1" "8021" "ClueCon")
                  (mkProcess (Some "10.0.0.5") 0)
                  [SrfError "ECONNRESET";
                   SrfConnect None "tcp/127.0.0.1:9022";
                   MsRejected "ECONNREFUSED"]
                  "call-1" "sip:bot@example.com" (Some "ep-1")
                  (fun H => match H with eq_refl => I end))).
Defined.

(** * The fallback in arbitrary event sequences *)

(** ** Who hangs up *)

Lemma hangups_by_app (sel : event -> bool) (s : session) (es1 es2 : list event) :
  hangups_by sel s (es1 ++ es2)
  = hangups_by sel s es1 + hangups_by sel (fst (run s es1)) es2.
Proof.
  revert s. induction es1 as [|e es1 IH]; intros s; [reflexivity|].
  cbn [app hangups_by]. rewrite IH, fst_run_cons. lia.
Qed.

Lemma hangups_by_none (sel : event -> bool) (s : session) (es : list event) :
  forallb (fun e => negb (sel e)) es = true -> hangups_by sel s es = 0.
Proof.
  revert s. induction es as [|e es IH]; intros s H; [reflexivity|].
  simpl in H. apply andb_prop in H as [He Hes]. apply negb_true_iff in He.
  cbn [hangups_by]. rewrite He, (IH _ Hes). reflexivity.
Qed.

(** Only the timer callback and the continuation of [handleAudio] hang up. *)
Lemma hangups_split (s : session) (es : list event) :
  count is_dialog_destroy (snd (run s es))
  = hangups_by is_timer_fire s es + hangups_by is_play_done s es.
Proof.
  revert s. induction es as [|e es IH]; intros s; [reflexivity|].
  rewrite run_cons. cbn [snd fst hangups_by]. rewrite count_app, IH.
  assert (H : count is_dialog_destroy (snd (step s e))
              = (if is_timer_fire e then count is_dialog_destroy (snd (step s e)) else 0)
                + (if is_play_done e then count is_dialog_destroy (snd (step s e)) else 0)).
  { clear IH. step_cases s e; reflexivity. }
  lia.
Qed.

Lemma forallb_app_true {A : Type} (p : A -> bool) (l1 l2 : list A) :
  forallb p l1 = true -> forallb p l2 = true -> forallb p (l1 ++ l2) = true.
Proof. intros H1 H2. rewrite forallb_app, H1, H2. reflexivity. Qed.

(** ** While [waitingForPlayStart] is down *)

Lemma step_waiting_down (s : session) (e : event) :
  truthy (waitingForPlayStart (ep s)) = false ->
  is_end_intent e = false ->
  truthy (waitingForPlayStart (ep (fst (step s e)))) = false
  /\ (if is_timer_fire e then count is_dialog_destroy (snd (step s e)) else 0) = 0.
Proof.
  intros Hw He. step_cases s e; simpl in He; try congruence; auto.
Qed.

Lemma run_waiting_down (s : session) (es : list event) :
  truthy (waitingForPlayStart (ep s)) = false ->
  forallb (fun e => negb (is_end_intent e)) es = true ->
  hangups_by is_timer_fire s es = 0.
Proof.
  revert s. induction es as [|e es IH]; intros s Hw H; [reflexivity|].
  simpl in H. apply andb_prop in H as [He Hes]. apply negb_true_iff in He.
  destruct (step_waiting_down s e Hw He) as [Hw' Hc].
  cbn [hangups_by]. rewrite Hc, (IH _ Hw' Hes). reflexivity.
Qed.

(** ** While a playback is awaited *)

Lemma step_play_awaited (s : session) (e : event) :
  playsAwaited s <> 0 -> is_play_done e = false ->
  playsAwaited (fst (step s e)) <> 0.
Proof.
  intros Hp He. step_cases s e; simpl in He; try congruence; auto.
Qed.

Lemma run_play_awaited (s : session) (es : list event) :
  playsAwaited s <> 0 ->
  forallb (fun e => negb (is_play_done e)) es = true ->
  playsAwaited (fst (run s es)) <> 0.
Proof.
  revert s. induction es as [|e es IH]; intros s Hp H; [exact Hp|].
  simpl in H. apply andb_prop in H as [He Hes]. apply negb_true_iff in He.
  rewrite fst_run_cons. apply IH; [|exact Hes]. apply step_play_awaited; assumption.
Qed.

Lemma play_done_hangs_up (s : session) :
  playsAwaited s <> 0 ->
  truthy (hangupAfterPlayDone (ep s)) = true ->
  snd (step s PlayDone) = [DialogDestroy].
Proof.
  intros Hp Hh. simpl. destruct (playsAwaited s); [congruence|].
  unfold handleAudio_resume; simpl. now rewrite Hh.
Qed.

Lemma end_intent_raises_hangup (s : session) (i : intent) :
  truthy (end_interaction i) = true ->
  truthy (hangupAfterPlayDone (ep (fst (step s (Intent i))))) = true.
Proof. intros Hi. simpl. unfold handleIntent. now rewrite Hi. Qed.

(** ** The final clip arrives in time *)

(** C2, as amended.  An intent ends the interaction, the audio event arrives
    before any timer has expired, and no further end-of-interaction intent
    arrives after the audio event.  Then the clip is played, no timer expiry
    hangs up, in the whole sequence, whenever and however often timers
    expire, and the first playback completion after the audio event hangs up
    the call.  Anything else (caller hangup, further audio, log-only events,
    further end-of-interaction intents before the audio event) may be
    interleaved. *)
Theorem timely_audio_cancels_fallback
        (s : session) (i : intent) (a : audio) (es1 pre post : list event) :
  truthy (end_interaction i) = true ->
  forallb (fun e => negb (is_timer_fire e)) es1 = true ->
  forallb (fun e => negb (is_end_intent e)) pre = true ->
  forallb (fun e => negb (is_play_done e)) pre = true ->
  forallb (fun e => negb (is_end_intent e)) post = true ->
  commands (snd (step (fst (run s (Intent i :: es1))) (AudioProvided a)))
    = [Play (path a)]
  /\ hangups_by is_timer_fire s
       (Intent i :: es1 ++ AudioProvided a :: pre ++ PlayDone :: post) = 0
  /\ snd (step (fst (run s (Intent i :: es1 ++ AudioProvided a :: pre))) PlayDone)
     = [DialogDestroy].
Proof.
  intros Hi H1 Hpre Hnp Hpost.
  assert (Hh : truthy (hangupAfterPlayDone
                         (ep (fst (run s (Intent i :: es1))))) = true).
  { rewrite fst_run_cons. apply run_hangup_sticky, end_intent_raises_hangup, Hi. }
  split; [reflexivity|]. split.
  - change (Intent i :: es1 ++ AudioProvided a :: pre ++ PlayDone :: post)
      with ((Intent i :: es1) ++ AudioProvided a :: pre ++ PlayDone :: post).
    rewrite hangups_by_app.
    rewrite (hangups_by_none is_timer_fire s (Intent i :: es1))
      by (cbn [forallb is_timer_fire negb andb]; exact H1).
    cbn [hangups_by is_timer_fire plus].
    apply run_waiting_down; [reflexivity|].
    apply forallb_app_true; [exact Hpre|]. cbn [forallb is_end_intent negb andb].
    exact Hpost.
  - change (Intent i :: es1 ++ AudioProvided a :: pre)
      with ((Intent i :: es1) ++ AudioProvided a :: pre).
    rewrite run_app. cbn [fst]. rewrite fst_run_cons.
    apply play_done_hangs_up.
    + apply run_play_awaited; [discriminate | exact Hnp].
    + apply run_hangup_sticky, step_hangup_sticky, Hh.
Qed.

Lemma timely_audio_cancels_fallback_witness :
  hangups_by is_timer_fire (new_session "ep-1")
    (Intent (mkIntent "{1}" (JBool true)) ::
     [Intent (mkIntent "{2}" (JBool true)); CallerBye] ++
     AudioProvided (mkAudio "bye.wav") ::
     [TimerFire; AudioProvided (mkAudio "more.wav")] ++
     PlayDone :: [TimerFire; PlayDone; TimerFire]) = 0.
Proof.
  exact (proj1 (proj2 (timely_audio_cancels_fallback
                         (new_session "ep-1") (mkIntent "{1}" (JBool true))
                         (mkAudio "bye.wav")
                         [Intent (mkIntent "{2}" (JBool true)); CallerBye]
                         [TimerFire; AudioProvided (mkAudio "more.wav")]
                         [TimerFire; PlayDone; TimerFire]
                         eq_refl eq_refl eq_refl eq_refl eq_refl))).
Defined.

(** C2, as stated, fails: the audio event arrives in time, but a second
    end-of-interaction intent raises [waitingForPlayStart] again while the
    clip is playing, and the timer of the first intent hangs up. *)
Lemma second_end_intent_rearms_first_timer :
  commands
    (snd (run (new_session "ep-1")
              [Intent (mkIntent "{1}" (JBool true));
               AudioProvided (mkAudio "bye.wav");
               Intent (mkIntent "{2}" (JBool true));
               TimerFire; PlayDone]))
  = [Play "bye.wav"; DialogDestroy; DialogDestroy]
  /\ snd (step (fst (run (new_session "ep-1")
                         [Intent (mkIntent "{1}" (JBool true));
                          AudioProvided (mkAudio "bye.wav");
                          Intent (mkIntent "{2}" (JBool true))]))
               TimerFire)
     = [DialogDestroy]
  /\ hangups_by is_timer_fire (new_session "ep-1")
       [Intent (mkIntent "{1}" (JBool true));
        AudioProvided (mkAudio "bye.wav");
        Intent (mkIntent "{2}" (JBool true));
        TimerFire; PlayDone] = 1.
Proof. repeat split. Qed.

(** ** No final clip *)

Lemma step_waiting_up (s : session) (e : event) :
  truthy (waitingForPlayStart (ep s)) = true ->
  is_audio_provided e = false ->
  truthy (waitingForPlayStart (ep (fst (step s e)))) = true.
Proof.
  intros Hw He. step_cases s e; simpl in He; try congruence; auto.
Qed.

Lemma step_timers_same (s : session) (e : event) :
  is_end_intent e = false -> is_timer_fire e = false ->
  timers (fst (step s e)) = timers s.
Proof.
  intros He Ht. step_cases s e; simpl in He, Ht; try congruence; auto.
Qed.

Lemma run_waiting_up (s : session) (es : list event) :
  truthy (waitingForPlayStart (ep s)) = true ->
  forallb (fun e => negb (is_audio_provided e)) es = true ->
  forallb (fun e => negb (is_end_intent e)) es = true ->
  forallb (fun e => negb (is_timer_fire e)) es = true ->
  truthy (waitingForPlayStart (ep (fst (run s es)))) = true
  /\ timers (fst (run s es)) = timers s.
Proof.
  revert s. induction es as [|e es IH]; intros s Hw Ha He Ht; [now split|].
  simpl in Ha, He, Ht.
  apply andb_prop in Ha as [Ha Has]. apply negb_true_iff in Ha.
  apply andb_prop in He as [He Hes]. apply negb_true_iff in He.
  apply andb_prop in Ht as [Ht Hts]. apply negb_true_iff in Ht.
  rewrite fst_run_cons, <- (step_timers_same s e He Ht).
  apply IH; auto using step_waiting_up.
Qed.

Lemma timer_fire_hangs_up (s : session) (d : nat) (ds : list nat) :
  timers s = d :: ds ->
  truthy (waitingForPlayStart (ep s)) = true ->
  step s TimerFire = (mkSession (ep s) (playsAwaited s) ds, [DialogDestroy]).
Proof.
  intros Ht Hw. simpl. rewrite Ht. unfold timerCallback; simpl. now rewrite Hw.
Qed.

Lemma step_no_timer (s : session) (e : event) :
  timers s = [] -> is_end_intent e = false ->
  timers (fst (step s e)) = []
  /\ (if is_timer_fire e then count is_dialog_destroy (snd (step s e)) else 0) = 0.
Proof.
  intros Ht He. step_cases s e; simpl in He; try congruence; auto.
Qed.

Lemma run_no_timer (s : session) (es : list event) :
  timers s = [] ->
  forallb (fun e => negb (is_end_intent e)) es = true ->
  hangups_by is_timer_fire s es = 0.
Proof.
  revert s. induction es as [|e es IH]; intros s Ht H; [reflexivity|].
  simpl in H. apply andb_prop in H as [He Hes]. apply negb_true_iff in He.
  destruct (step_no_timer s e Ht He) as [Ht' Hc].
  cbn [hangups_by]. rewrite Hc, (IH _ Ht' Hes). reflexivity.
Qed.

(** C3, as amended.  With no timer pending, an intent ends the interaction
    and neither an audio event nor another such intent arrives before its
    timer expires.  Then the timer callback hangs up through the SIP
    dialog, and it is the only timer to do so in the whole sequence, whatever
    is interleaved before the expiry (caller hangup, playback completions,
    log-only events) and whatever follows it short of another
    end-of-interaction intent; every other hangup of the sequence comes from
    a playback completion.  When one caller hangup is among the events,
    [endpoint.destroy()] is called exactly once. *)
Theorem fallback_fires_once
        (s : session) (i : intent) (es2 es3 : list event) :
  timers s = [] ->
  truthy (end_interaction i) = true ->
  forallb (fun e => negb (is_audio_provided e)) es2 = true ->
  forallb (fun e => negb (is_end_intent e)) es2 = true ->
  forallb (fun e => negb (is_timer_fire e)) es2 = true ->
  forallb (fun e => negb (is_end_intent e)) es3 = true ->
  snd (step (fst (run s (Intent i :: es2))) TimerFire) = [DialogDestroy]
  /\ hangups_by is_timer_fire s (Intent i :: es2 ++ TimerFire :: es3) = 1
  /\ count is_dialog_destroy (snd (run s (Intent i :: es2 ++ TimerFire :: es3)))
     = 1 + hangups_by is_play_done s (Intent i :: es2 ++ TimerFire :: es3)
  /\ (List.length (filter is_caller_bye (Intent i :: es2 ++ TimerFire :: es3)) = 1 ->
      count is_endpoint_destroy
        (snd (run s (Intent i :: es2 ++ TimerFire :: es3))) = 1).
Proof.
  intros Hs Hi Ha He Ht He3.
  assert (H1 : step s (Intent i) =
               (setTimeout 1000
                  (set_waitingForPlayStart (JBool true)
                     (set_hangupAfterPlayDone (JBool true) s)),
                [LogInfo ("got intent: " ++ intent_json i)%string])).
  { simpl. unfold handleIntent. now rewrite Hi. }
  destruct (run_waiting_up (fst (step s (Intent i))) es2) as [Hw Htm];
    try assumption.
  { rewrite H1. reflexivity. }
  assert (Htm' : timers (fst (run s (Intent i :: es2))) = [1000]).
  { rewrite fst_run_cons, Htm, H1. cbn [fst setTimeout timers]. simpl.
    now rewrite Hs. }
  assert (Hw' : truthy (waitingForPlayStart
                          (ep (fst (run s (Intent i :: es2))))) = true).
  { rewrite fst_run_cons. exact Hw. }
  pose proof (timer_fire_hangs_up _ _ _ Htm' Hw') as Hfire.
  assert (Hby : hangups_by is_timer_fire s (Intent i :: es2 ++ TimerFire :: es3) = 1).
  { change (Intent i :: es2 ++ TimerFire :: es3)
      with ((Intent i :: es2) ++ TimerFire :: es3).
    rewrite hangups_by_app.
    rewrite (hangups_by_none is_timer_fire s (Intent i :: es2))
      by (cbn [forallb is_timer_fire negb andb]; exact Ht).
    cbn [hangups_by is_timer_fire]. rewrite Hfire. cbn [fst snd].
    rewrite run_no_timer; [reflexivity | reflexivity | exact He3]. }
  split; [now rewrite Hfire|]. split; [exact Hby|]. split.
  - now rewrite hangups_split, Hby.
  - intros Hbye. now rewrite run_endpoint_destroys.
Qed.

Lemma fallback_fires_once_witness :
  hangups_by is_timer_fire
    (fst (run (new_session "ep-1") [AudioProvided (mkAudio "welcome.wav")]))
    (Intent (mkIntent "{}" (JBool true)) ::
     [CallerBye; PlayDone; EndOfUtterance "{}"] ++
     TimerFire :: [AudioProvided (mkAudio "late.wav"); TimerFire; PlayDone]) = 1.
Proof.
  exact (proj1 (proj2 (fallback_fires_once
                         (fst (run (new_session "ep-1")
                                   [AudioProvided (mkAudio "welcome.wav")]))
                         (mkIntent "{}" (JBool true))
                         [CallerBye; PlayDone; EndOfUtterance "{}"]
                         [AudioProvided (mkAudio "late.wav"); TimerFire; PlayDone]
                         eq_refl eq_refl eq_refl eq_refl eq_refl eq_refl))).
Defined.

(** C3, as stated, fails: two intents end the interaction, no audio event
    follows, and the fallback hangs up twice, once for each timer. *)
Lemma two_end_intents_two_fallback_hangups :
  commands
    (snd (run (new_session "ep-1")
              [Intent (mkIntent "{1}" (JBool true));
               Intent (mkIntent "{2}" (JBool true));
               TimerFire; TimerFire]))
  = [DialogDestroy; DialogDestroy]
  /\ hangups_by is_timer_fire (new_session "ep-1")
       [Intent (mkIntent "{1}" (JBool true));
        Intent (mkIntent "{2}" (JBool true));
        TimerFire; TimerFire] = 2.
Proof. split; reflexivity. Qed.

(** ** Events that arrive after the end of the call *)

Lemma step_plays (s : session) (e : event) :
  count is_play (snd (step s e)) = if is_audio_provided e then 1 else 0.
Proof. step_cases s e; reflexivity. Qed.

Lemma run_plays (s : session) (es : list event) :
  count is_play (snd (run s es)) = List.length (filter is_audio_provided es).
Proof.
  revert s. induction es as [|e es IH]; intros s; [reflexivity|].
  rewrite run_cons. cbn [snd fst filter]. rewrite count_app, step_plays, IH.
  now destruct (is_audio_provided e).
Qed.

Lemma step_turn_needs_play_done (s : session) (e : event) :
  is_play_done e = false -> count is_api (snd (step s e)) = 0.
Proof.
  intros He. step_cases s e; simpl in He; try congruence; reflexivity.
Qed.

Lemma run_turn_needs_play_done (s : session) (es : list event) :
  existsb is_play_done es = false -> count is_api (snd (run s es)) = 0.
Proof.
  revert s. induction es as [|e es IH]; intros s H; [reflexivity|].
  simpl in H. apply orb_false_iff in H as [He Hes].
  rewrite run_cons. cbn [snd fst].
  now rewrite count_app, (step_turn_needs_play_done s e He), (IH _ Hes).
Qed.

Lemma step_waiting_implies_hangup (s : session) (e : event) :
  implb (truthy (waitingForPlayStart (ep s)))
        (truthy (hangupAfterPlayDone (ep s))) = true ->
  implb (truthy (waitingForPlayStart (ep (fst (step s e)))))
        (truthy (hangupAfterPlayDone (ep (fst (step s e))))) = true
  /\ (existsb is_dialog_destroy (snd (step s e)) = true ->
      truthy (hangupAfterPlayDone (ep s)) = true).
Proof.
  intros Hi. step_cases s e;
    repeat match goal with
           | H : truthy ?x = _ |- context [truthy ?x] => rewrite H
           end;
    split; auto; try discriminate.
Qed.

(** A hangup by the application is only ever issued with
    [hangupAfterPlayDone] set, and the flag stays. *)
Lemma application_hangup_sets_flag (s : session) (es : list event) :
  implb (truthy (waitingForPlayStart (ep s)))
        (truthy (hangupAfterPlayDone (ep s))) = true ->
  existsb is_dialog_destroy (snd (run s es)) = true ->
  truthy (hangupAfterPlayDone (ep (fst (run s es)))) = true.
Proof.
  revert s. induction es as [|e es IH]; intros s Hi H; [discriminate|].
  rewrite run_cons in H. cbn [snd] in H. rewrite existsb_app in H.
  destruct (step_waiting_implies_hangup s e Hi) as [Hi' Hd].
  rewrite fst_run_cons.
  apply orb_true_iff in H as [H|H].
  - apply run_hangup_sticky, step_hangup_sticky, Hd, H.
  - apply IH; assumption.
Qed.

Lemma terminated_by (t : list effect) :
  terminated t = existsb is_endpoint_destroy t || existsb is_dialog_destroy t.
Proof.
  unfold terminated. induction t as [|x t IH]; [reflexivity|].
  cbn [existsb]. rewrite IH.
  destruct (is_endpoint_destroy x), (is_dialog_destroy x),
    (existsb is_endpoint_destroy t), (existsb is_dialog_destroy t); reflexivity.
Qed.

(** C5, as amended.  For a call that has been terminated, whatever events
    arrive afterwards: a clip is played for each audio event among them and
    for nothing else, since the handlers keep no record of the termination;
    and a next turn is requested only if the application itself never hung
    up (the call was ended by the caller's BYE alone) and a playback
    completes among the later events.  So after a hangup by the application
    no turn is requested any more, and without an audio event or a playback
    completion no command of either kind is issued. *)
Theorem commands_after_termination (u : string) (before after : list event) :
  terminated (snd (run (new_session u) before)) = true ->
  count is_play (snd (run (fst (run (new_session u) before)) after))
    = List.length (filter is_audio_provided after)
  /\ (count is_api (snd (run (fst (run (new_session u) before)) after)) = 0
      \/ existsb is_dialog_destroy (snd (run (new_session u) before)) = false
         /\ existsb is_endpoint_destroy (snd (run (new_session u) before)) = true
         /\ existsb is_play_done after = true).
Proof.
  intros Ht. split; [apply run_plays|].
  destruct (existsb is_dialog_destroy (snd (run (new_session u) before))) eqn:Hd.
  - left. apply run_hangup_no_turn.
    apply application_hangup_sets_flag; [reflexivity | exact Hd].
  - destruct (existsb is_play_done after) eqn:Hp.
    + right. rewrite terminated_by, Hd, orb_false_r in Ht. now repeat split.
    + left. apply run_turn_needs_play_done, Hp.
Qed.

Lemma commands_after_termination_witness :
  count is_play
    (snd (run (fst (run (new_session "ep-1")
                        [AudioProvided (mkAudio "bye.wav");
                         Intent (mkIntent "{}" (JBool true)); PlayDone]))
              [AudioProvided (mkAudio "late.wav"); PlayDone; TimerFire;
               Intent (mkIntent "{}" (JBool false)); CallerBye]))
  = List.length
      (filter is_audio_provided
              [AudioProvided (mkAudio "late.wav"); PlayDone; TimerFire;
               Intent (mkIntent "{}" (JBool false)); CallerBye]).
Proof.
  exact (proj1 (commands_after_termination
                  "ep-1"
                  [AudioProvided (mkAudio "bye.wav");
                   Intent (mkIntent "{}" (JBool true)); PlayDone]
                  [AudioProvided (mkAudio "late.wav"); PlayDone; TimerFire;
                   Intent (mkIntent "{}" (JBool false)); CallerBye]
                  eq_refl)).
Defined.

(** C5, as stated, fails twice: after the fallback has hung up, a late audio
    event is played all the same; and after the caller has hung up during a
    playback, the completion of that playback requests the next turn. *)
Lemma commands_issued_after_termination :
  terminated (snd (run (new_session "ep-1")
                       [Intent (mkIntent "{}" (JBool true)); TimerFire])) = true
  /\ snd (step (fst (run (new_session "ep-1")
                         [Intent (mkIntent "{}" (JBool true)); TimerFire]))
               (AudioProvided (mkAudio "late.wav")))
     = [LogInfo "got audio file to play: late.wav"; Play "late.wav"]
  /\ terminated (snd (run (new_session "ep-1")
                          [AudioProvided (mkAudio "a.wav"); CallerBye])) = true
  /\ snd (step (fst (run (new_session "ep-1")
                         [AudioProvided (mkAudio "a.wav"); CallerBye]))
               PlayDone)
     = [Api "dialogflow_start" "ep-1 rising-af044 en-US 20"].
Proof. repeat split. Qed.
